(** * zodkit: parsing request data with zod schemas

    A shallow embedding of [src/lib/parsers.ts] (and of the earlier variant of
    the same module that the repository still carries), together with the
    properties the specification states about it.

    The module is a thin layer between three platform objects
    ([URLSearchParams], [FormData], the SvelteKit [RequestEvent]) and the zod
    validator.  The platform and the validator are not part of the repository:
    - the JavaScript object model needed by [getSearchParams] (own properties,
      the prototype chain of an object literal, truthiness, [Array.isArray])
      is written out in [Module JS];
    - the validator is the class [Zod], a parameter of the operations;
      [Module ZodSchemas] gives an instance with the three kinds of schema
      that the test-suite uses. *)

From Stdlib Require Import ZArith Ascii String.
From stdpp Require Import gmap strings list fin_maps.

#[local] Set Warnings "-register-all".
#[local] Open Scope string_scope.

(** ** JavaScript values *)

Module JS.

(** Number values.  Only integral ones are computed with. *)
Inductive jsnum :=
| NaN
| Num (z : Z).

(** Objects of the runtime that user data can reach through a prototype. *)
Inductive native :=
| ObjectPrototype
| ArrayPrototype
| NativeFunction (name : string)
| PlatformObject (className : string).

Inductive jsval :=
| JUndefined
| JNull
| JStr (s : string)
| JNum (n : jsnum)
| JNative (n : native)
| JArr (items : list jsval)
| JObj (own : gmap string jsval) (proto : jsval).

(** [ToBoolean]. *)
Definition truthy (v : jsval) : bool :=
  match v with
  | JUndefined | JNull => false
  | JStr s => negb (String.eqb s "")
  | JNum NaN => false
  | JNum (Num z) => negb (z =? 0)%Z
  | JNative _ | JArr _ | JObj _ _ => true
  end.

(** [Array.isArray]: array instances, and [Array.prototype] itself. *)
Definition isArray (v : jsval) : bool :=
  match v with
  | JArr _ | JNative ArrayPrototype => true
  | _ => false
  end.

(** The object literal [{}]. *)
Definition empty_object : jsval := JObj ∅ (JNative ObjectPrototype).

(** String-keyed properties of [Object.prototype] other than the [__proto__]
    accessor; every one of them holds a function. *)
Definition ObjectPrototype_names : list string :=
  [ "constructor"; "hasOwnProperty"; "isPrototypeOf"; "propertyIsEnumerable";
    "toLocaleString"; "toString"; "valueOf";
    "__defineGetter__"; "__defineSetter__";
    "__lookupGetter__"; "__lookupSetter__" ].

(** String-keyed properties of [Array.prototype] (ECMAScript 2023) other than
    [length]; every one of them holds a function. *)
Definition ArrayPrototype_names : list string :=
  [ "at"; "concat"; "constructor"; "copyWithin"; "entries"; "every"; "fill";
    "filter"; "find"; "findIndex"; "findLast"; "findLastIndex"; "flat";
    "flatMap"; "forEach"; "includes"; "indexOf"; "join"; "keys";
    "lastIndexOf"; "map"; "pop"; "push"; "reduce"; "reduceRight"; "reverse";
    "shift"; "slice"; "some"; "sort"; "splice"; "toLocaleString";
    "toReversed"; "toSorted"; "toSpliced"; "toString"; "unshift"; "values";
    "with" ].

Definition has_name (names : list string) (key : string) : bool :=
  existsb (String.eqb key) names.
Arguments has_name : simpl never.

(** A property read that reaches [Object.prototype].  The [__proto__] getter
    answers with the prototype of the object the read started from. *)
Definition ObjectPrototype_get (receiverProto : jsval) (key : string) : jsval :=
  if String.eqb key "__proto__" then receiverProto
  else if has_name ObjectPrototype_names key
       then JNative (NativeFunction ("Object.prototype." ++ key))
       else JUndefined.

Definition ArrayPrototype_get (receiverProto : jsval) (key : string) : jsval :=
  if String.eqb key "length" then JNum (Num 0)
  else if has_name ArrayPrototype_names key
       then JNative (NativeFunction ("Array.prototype." ++ key))
       else ObjectPrototype_get receiverProto key.

Definition is_digit (c : ascii) : bool :=
  (48 <=? Ascii.nat_of_ascii c)%nat && (Ascii.nat_of_ascii c <=? 57)%nat.

Fixpoint digits_value (s : string) (acc : N) : option N :=
  match s with
  | EmptyString => Some acc
  | String c s' =>
      if is_digit c
      then digits_value s' (10 * acc + (Ascii.N_of_ascii c - 48))%N
      else None
  end.

(** Array index keys: the canonical decimal strings below [2^32 - 1]. *)
Definition array_index (key : string) : option nat :=
  match key with
  | EmptyString => None
  | String c rest =>
      if Ascii.eqb c "0"%char && negb (String.eqb rest "") then None
      else match digits_value key 0 with
           | Some n => if (n <? 4294967295)%N then Some (N.to_nat n) else None
           | None => None
           end
  end.

(** Own properties of an array instance. *)
Definition Array_get_own (items : list jsval) (key : string) : option jsval :=
  if String.eqb key "length" then Some (JNum (Num (Z.of_nat (length items))))
  else match array_index key with
       | Some i => items !! i
       | None => None
       end.

(** [[Get]] along the prototype chain, starting at [holder]. *)
Fixpoint chain_get (receiverProto holder : jsval) (key : string) : jsval :=
  match holder with
  | JObj own proto =>
      match own !! key with
      | Some v => v
      | None => chain_get receiverProto proto key
      end
  | JArr items =>
      match Array_get_own items key with
      | Some v => v
      | None => ArrayPrototype_get receiverProto key
      end
  | JNative ArrayPrototype => ArrayPrototype_get receiverProto key
  | JNative ObjectPrototype => ObjectPrototype_get receiverProto key
  | _ => JUndefined
  end.

Definition prototype_of (v : jsval) : jsval :=
  match v with
  | JObj _ proto => proto
  | JArr _ => JNative ArrayPrototype
  | JNative ArrayPrototype => JNative ObjectPrototype
  | _ => JNull
  end.

(** The property read [v[key]] on an object. *)
Definition Get (v : jsval) (key : string) : jsval :=
  chain_get (prototype_of v) v key.

(** [v instanceof Object]: [Object.prototype] occurs on the prototype chain
    of [v]. *)
Fixpoint instanceof_Object (v : jsval) : bool :=
  match v with
  | JObj _ proto =>
      match proto with
      | JNative ObjectPrototype => true
      | _ => instanceof_Object proto
      end
  | JArr _ => true
  | JNative ArrayPrototype => true
  | JNative (NativeFunction _) => true
  | JNative (PlatformObject _) => true
  | _ => false
  end.

End JS.
Export JS.

(** ** Platform objects *)

(** A [URLSearchParams] is iterated as its list of name-value pairs. *)
Abbreviation URLSearchParams := (list (string * string)).

(** A [FormData] entry is a string or a [File]. *)
Inductive FormDataEntryValue :=
| EntryString (s : string)
| EntryFile (fileName : string).

Abbreviation FormData := (list (string * FormDataEntryValue)).

(** [new URLSearchParams(formData)]: the constructor iterates the entries and
    converts both components to strings; a [File] becomes its default string
    form. *)
Definition entry_to_string (v : FormDataEntryValue) : string :=
  match v with
  | EntryString s => s
  | EntryFile _ => "[object File]"
  end.

Definition new_URLSearchParams (formData : FormData) : URLSearchParams :=
  map (fun e => (fst e, entry_to_string (snd e))) formData.

(** A [Request], as far as [formData()] is concerned: whether it has a body
    ([request.body !== null]), whether that body has been read, and what
    reading the bytes and decoding them as form data yields: the entries, or
    the reason of the failure. *)
Record Request := {
  hasBody : bool;
  bodyUsed : bool;
  decoded : FormData + string
}.

(** [Partial<Record<string, string>>]: a present key holds a string or
    [undefined]. *)
Abbreviation RouteParams := (gmap string (option string)).

Record RequestEvent := {
  url_searchParams : URLSearchParams;
  request : Request;
  params : RouteParams
}.

(** What the module and the platform throw or reject with. *)
Record HttpError (B : Type) := { status : Z; error_body : B }.
Record ActionFailure (D : Type) := { failure_status : Z; failure_data : D }.
Arguments status {B} _.
Arguments error_body {B} _.
Arguments failure_status {D} _.
Arguments failure_data {D} _.

Abbreviation FieldErrors := (gmap string (list string)).

(** [{ message: 'Parsing Failed', errors }], the body handed to [error]. *)
Record ParseErrorBody := { message : string; errors : FieldErrors }.

(** [{ errors }], the data handed to [fail]. *)
Record FailureData := { failure_errors : FieldErrors }.

Inductive thrown :=
| ThrowHttpError (e : HttpError ParseErrorBody)
| ThrowActionFailure (f : ActionFailure FailureData)
| ThrowBodyUnusable
| ThrowBodyError (reason : string).

(** Outcome of a synchronous call. *)
Inductive completion (A : Type) :=
| Return (a : A)
| Throw (e : thrown).
Arguments Return {A} a.
Arguments Throw {A} e.

(** Outcome of an awaited promise. *)
Inductive Promise (A : Type) :=
| Fulfilled (a : A)
| Rejected (e : thrown).
Arguments Fulfilled {A} a.
Arguments Rejected {A} e.

(** [await p] followed by the rest of an async function body that ends in
    [return k(v)] where [k] is synchronous: a rejection of [p] and a throw of
    [k] both reject the function's promise. *)
Definition await_then {A B : Type} (p : Promise A) (k : A -> completion B)
  : Promise B :=
  match p with
  | Fulfilled a =>
      match k a with
      | Return b => Fulfilled b
      | Throw e => Rejected e
      end
  | Rejected e => Rejected e
  end.

(** [error(status, body)] and [fail(status, data)] of [@sveltejs/kit]. *)
Definition error {B : Type} (st : Z) (b : B) : HttpError B :=
  {| status := st; error_body := b |}.

Definition fail {D : Type} (st : Z) (d : D) : ActionFailure D :=
  {| failure_status := st; failure_data := d |}.

(** [request.formData()]: the promise's outcome and the request afterwards.
    A body that has been read is unusable; reading a body marks it as used. *)
Definition Request_formData (r : Request) : Promise FormData * Request :=
  if hasBody r && bodyUsed r then (Rejected ThrowBodyUnusable, r)
  else (match decoded r with
        | inl formData => Fulfilled formData
        | inr reason => Rejected (ThrowBodyError reason)
        end,
        {| hasBody := hasBody r;
           bodyUsed := hasBody r || bodyUsed r;
           decoded := decoded r |}).

(** ** The input normalizer *)

(** The object [params] of [getSearchParams]: its own properties and its
    prototype, which is [Object.prototype] ([None]) until an assignment to
    [__proto__] installs an array. *)
Record Params := {
  params_own : gmap string jsval;
  params_proto : option (list jsval)
}.

Definition Params_to_js (p : Params) : jsval :=
  JObj (params_own p)
       (match params_proto p with
        | None => JNative ObjectPrototype
        | Some items => JArr items
        end).

(** Where the value read by [params[key]] lives, for the arrays that [push]
    extends in place. *)
Inductive location :=
| InOwn
| InProto
| InProtoItem (i : nat)
| InRuntime.

Definition locate (p : Params) (key : string) : location :=
  match params_own p !! key with
  | Some _ => InOwn
  | None =>
      match params_proto p with
      | None => InRuntime
      | Some items =>
          if String.eqb key "length" then InRuntime
          else match array_index key with
               | Some i => if (i <? length items)%nat then InProtoItem i
                           else InRuntime
               | None =>
                   if has_name ArrayPrototype_names key then InRuntime
                   else if String.eqb key "__proto__" then InProto
                        else InRuntime
               end
      end
  end.

(** [current.push(value)]. *)
Definition push (p : Params) (key : string) (current : jsval) (value : string)
  : Params :=
  match current with
  | JArr items =>
      let items' := JArr (items ++ [JStr value])%list in
      match locate p key with
      | InOwn =>
          {| params_own := <[key := items']> (params_own p);
             params_proto := params_proto p |}
      | InProto =>
          {| params_own := params_own p;
             params_proto := Some (items ++ [JStr value])%list |}
      | InProtoItem i =>
          {| params_own := params_own p;
             params_proto := (fun l => <[i := items']> l) <$> params_proto p |}
      | InRuntime => p
      end
  | _ => p
  end.

(** [params[key] = v], where [v] is a string or a fresh array.  The setter of
    [__proto__] replaces the prototype when [v] is an object and ignores
    primitives; every other key becomes an own property. *)
Definition assign (p : Params) (key : string) (v : jsval) : Params :=
  if String.eqb key "__proto__" then
    match params_own p !! key, v with
    | None, JArr items =>
        {| params_own := params_own p; params_proto := Some items |}
    | None, _ => p
    | Some _, _ =>
        {| params_own := <[key := v]> (params_own p);
           params_proto := params_proto p |}
    end
  else {| params_own := <[key := v]> (params_own p);
          params_proto := params_proto p |}.

(** One iteration of the loop of [getSearchParams]. *)
Definition getSearchParams_step (p : Params) (pair : string * string) : Params :=
  let '(key, value) := pair in
  let current := Get (Params_to_js p) key in
  if truthy current && isArray current then push p key current value
  else assign p key (if truthy current
                     then JArr [current; JStr value]
                     else JStr value).

Definition getSearchParams_loop (searchParams : URLSearchParams) (p : Params)
  : Params :=
  fold_left getSearchParams_step searchParams p.

Definition getSearchParams (data : URLSearchParams + RequestEvent) : Params :=
  let searchParams :=
    match data with
    | inl searchParams => searchParams
    | inr event => url_searchParams event
    end in
  getSearchParams_loop searchParams
    {| params_own := ∅; params_proto := None |}.

(** [getFormData]: the promise's outcome, and [data] after the call. *)
Definition getFormData (data : FormData + RequestEvent)
  : Promise Params * (FormData + RequestEvent) :=
  match data with
  | inl formData =>
      (Fulfilled (getSearchParams (inl (new_URLSearchParams formData))), data)
  | inr event =>
      let '(read, request') := Request_formData (request event) in
      (await_then read
         (fun formData =>
            Return (getSearchParams (inl (new_URLSearchParams formData)))),
       inr {| url_searchParams := url_searchParams event;
              request := request';
              params := params event |})
  end.

(** The run-time shape of the two arguments that the route operations
    accept. *)
Definition optional_to_js (v : option string) : jsval :=
  match v with
  | Some s => JStr s
  | None => JUndefined
  end.

Definition RouteParams_to_js (m : RouteParams) : jsval :=
  JObj (optional_to_js <$> m) (JNative ObjectPrototype).

Definition RequestEvent_to_js (event : RequestEvent) : jsval :=
  JObj {[ "params" := RouteParams_to_js (params event);
          "request" := JNative (PlatformObject "Request");
          "url" := JNative (PlatformObject "URL") ]}
       (JNative ObjectPrototype).

Definition route_data_to_js (data : RouteParams + RequestEvent) : jsval :=
  match data with
  | inl routeParams => RouteParams_to_js routeParams
  | inr event => RequestEvent_to_js event
  end.

(** The one argument on which a form operation has something to use up: a
    request wrapper whose request has a body that has not been read. *)
Definition unread_body (data : FormData + RequestEvent) : bool :=
  match data with
  | inl _ => false
  | inr event => hasBody (request event) && negb (bodyUsed (request event))
  end.

(** The request wrapper after [request.formData()] has been called on it. *)
Definition body_read (event : RequestEvent) : RequestEvent :=
  {| url_searchParams := url_searchParams event;
     request := snd (Request_formData (request event));
     params := params event |}.

(** A synchronous outcome as the outcome of an async function that returns
    or throws it. *)
Definition settle {A : Type} (c : completion A) : Promise A :=
  match c with
  | Return a => Fulfilled a
  | Throw e => Rejected e
  end.

(** ** The validator interface *)

(** [{ success: true, data } | { success: false, error }]. *)
Inductive SafeParseReturnType (O E : Type) :=
| SafeParseSuccess (data : O)
| SafeParseError (error : E).
Arguments SafeParseSuccess {O E} data.
Arguments SafeParseError {O E} error.

(** What the module uses of zod: schema instances with [safeParse], the
    constructor [z.object] for a raw shape, and [error.flatten().fieldErrors].
    All three are taken to return. *)
Class Zod := {
  ZodType : Type;
  ZodRawShape : Type;
  Output : Type;
  ZodError : Type;
  z_object : ZodRawShape -> ZodType;
  safeParse : ZodType -> jsval -> SafeParseReturnType Output ZodError;
  flatten_fieldErrors : ZodError -> FieldErrors
}.

(** [type Schema = ZodTypeAny | ZodRawShape]. *)
Inductive Schema `{Zod} :=
| SchemaInstance (schema : ZodType)
| SchemaShape (shape : ZodRawShape).

(** ** The schema adapter and the result shaper ([src/lib/parsers.ts]) *)

Record SafeParseFailure := {
  safe_errors : FieldErrors;
  response : ActionFailure FailureData
}.

(** [SafeParseData<T>]: the validator's success object, or the failure record
    with [success: false]. *)
Inductive SafeParseData (O : Type) :=
| SafeData (data : O)
| SafeFailure (failure : SafeParseFailure).
Arguments SafeData {O} data.
Arguments SafeFailure {O} failure.

Section Parsers.
Context `{Zod}.

Definition getSchema (schema : Schema) : ZodType :=
  match schema with
  | SchemaInstance schema => schema
  | SchemaShape shape => z_object shape
  end.

Definition parseSafe (data : jsval) (schema : Schema) : SafeParseData Output :=
  match safeParse (getSchema schema) data with
  | SafeParseError e =>
      SafeFailure
        {| safe_errors := flatten_fieldErrors e;
           response := fail 400 {| failure_errors := flatten_fieldErrors e |} |}
  | SafeParseSuccess d => SafeData d
  end.

Definition parse (data : jsval) (schema : Schema) : completion Output :=
  match safeParse (getSchema schema) data with
  | SafeParseError e =>
      Throw (ThrowHttpError
               (error 400 {| message := "Parsing Failed";
                             errors := flatten_fieldErrors e |}))
  | SafeParseSuccess d => Return d
  end.

Definition parseSearchParamsSafe
    (data : URLSearchParams + RequestEvent) (schema : Schema)
  : SafeParseData Output :=
  let params := getSearchParams data in
  parseSafe (Params_to_js params) schema.

Definition parseSearchParams
    (data : URLSearchParams + RequestEvent) (schema : Schema)
  : completion Output :=
  let params := getSearchParams data in
  parse (Params_to_js params) schema.

Definition parseFormDataSafe
    (data : FormData + RequestEvent) (schema : Schema)
  : Promise (SafeParseData Output) * (FormData + RequestEvent) :=
  let '(formData, data') := getFormData data in
  (await_then formData
     (fun formData => Return (parseSafe (Params_to_js formData) schema)),
   data').

Definition parseFormData
    (data : FormData + RequestEvent) (schema : Schema)
  : Promise Output * (FormData + RequestEvent) :=
  let '(formData, data') := getFormData data in
  (await_then formData
     (fun formData => parse (Params_to_js formData) schema),
   data').

Definition isRequestEvent (data : jsval) : bool :=
  instanceof_Object (Get data "params").

Definition parseRouteParamsSafe
    (data : RouteParams + RequestEvent) (schema : Schema)
  : SafeParseData Output :=
  let data := route_data_to_js data in
  let routeParams := if isRequestEvent data then Get data "params" else data in
  parseSafe routeParams schema.

Definition parseRouteParams
    (data : RouteParams + RequestEvent) (schema : Schema)
  : completion Output :=
  let data := route_data_to_js data in
  let routeParams := if isRequestEvent data then Get data "params" else data in
  parse routeParams schema.

End Parsers.

(** ** The earlier variant of the module

    It differs in the result shaper only: [parseSafe] hands back the
    validator's result, and [parse] throws [fail(400, { errors })]. *)

Module Legacy.
Section Parsers.
Context `{Zod}.

Definition parseSafe (data : jsval) (schema : Schema)
  : SafeParseReturnType Output ZodError :=
  safeParse (getSchema schema) data.

Definition parse (data : jsval) (schema : Schema) : completion Output :=
  match parseSafe data schema with
  | SafeParseError e =>
      Throw (ThrowActionFailure
               (fail 400 {| failure_errors := flatten_fieldErrors e |}))
  | SafeParseSuccess d => Return d
  end.

Definition parseSearchParamsSafe
    (data : URLSearchParams + RequestEvent) (schema : Schema) :=
  let params := getSearchParams data in
  parseSafe (Params_to_js params) schema.

Definition parseSearchParams
    (data : URLSearchParams + RequestEvent) (schema : Schema) :=
  let params := getSearchParams data in
  parse (Params_to_js params) schema.

Definition parseFormDataSafe
    (data : FormData + RequestEvent) (schema : Schema) :=
  let '(formData, data') := getFormData data in
  (await_then formData
     (fun formData => Return (parseSafe (Params_to_js formData) schema)),
   data').

Definition parseFormData
    (data : FormData + RequestEvent) (schema : Schema) :=
  let '(formData, data') := getFormData data in
  (await_then formData
     (fun formData => parse (Params_to_js formData) schema),
   data').

Definition parseRouteParamsSafe
    (data : RouteParams + RequestEvent) (schema : Schema) :=
  let data := route_data_to_js data in
  let routeParams := if isRequestEvent data then Get data "params" else data in
  parseSafe routeParams schema.

Definition parseRouteParams
    (data : RouteParams + RequestEvent) (schema : Schema) :=
  let data := route_data_to_js data in
  let routeParams := if isRequestEvent data then Get data "params" else data in
  parse routeParams schema.

End Parsers.
End Legacy.

(** ** A validator instance

    The observable behaviour of three kinds of zod schema: [z.string()],
    [z.number()] (with or without [coerce]) and [z.object(shape)] with the
    default policy of dropping unknown keys.  The coercion [Number(x)] is a
    parameter. *)

Module ZodSchemas.

Inductive ZodTypeAny :=
| ZodString
| ZodNumber (coerce : bool)
| ZodObject (shape : list (string * ZodTypeAny)).

Record ZodIssue := { path : list string; issue_message : string }.

Definition is_function (v : jsval) : bool :=
  match v with
  | JNative (NativeFunction _) => true
  | _ => false
  end.

Definition getParsedType (data : jsval) : string :=
  match data with
  | JUndefined => "undefined"
  | JNull => "null"
  | JStr _ => "string"
  | JNum NaN => "nan"
  | JNum (Num _) => "number"
  | JNative (NativeFunction _) => "function"
  | JNative ArrayPrototype | JArr _ => "array"
  | JNative _ => "object"
  | JObj _ _ =>
      if is_function (Get data "then") && is_function (Get data "catch")
      then "promise" else "object"
  end.

(** The issue [invalid_type] with the message of the default error map. *)
Definition invalid_type (path : list string) (expected received : string)
  : ZodIssue :=
  {| path := path;
     issue_message :=
       if String.eqb received "undefined" then "Required"
       else "Expected " ++ expected ++ ", received " ++ received |}.

Section Coercion.
Variable ToNumber : jsval -> jsnum.

(** [schema._parse(input)]: the parsed value unless parsing aborted, and
    the issues added to the context. *)
Fixpoint _parse (schema : ZodTypeAny) (path : list string) (data : jsval)
  : option jsval * list ZodIssue :=
  match schema with
  | ZodString =>
      if String.eqb (getParsedType data) "string" then (Some data, [])
      else (None, [invalid_type path "string" (getParsedType data)])
  | ZodNumber coerce =>
      let data := if coerce then JNum (ToNumber data) else data in
      if String.eqb (getParsedType data) "number" then (Some data, [])
      else (None, [invalid_type path "number" (getParsedType data)])
  | ZodObject shape =>
      if String.eqb (getParsedType data) "object" then
        let fields :=
          (fix fields (shape : list (string * ZodTypeAny))
             : option (gmap string jsval) * list ZodIssue :=
             match shape with
             | [] => (Some ∅, [])
             | (key, validator) :: rest =>
                 let '(value, issues) :=
                   _parse validator (path ++ [key])%list (Get data key) in
                 let '(finalObject, issues') := fields rest in
                 (match value, finalObject with
                  | Some v, Some o =>
                      Some (if String.eqb key "__proto__" then o
                            else <[key := v]> o)
                  | _, _ => None
                  end,
                  (issues ++ issues')%list)
             end) shape in
        (match fst fields with
         | Some o => Some (JObj o (JNative ObjectPrototype))
         | None => None
         end,
         snd fields)
      else (None, [invalid_type path "object" (getParsedType data)])
  end.

Definition safeParse (schema : ZodTypeAny) (data : jsval)
  : SafeParseReturnType jsval (list ZodIssue) :=
  match _parse schema [] data with
  | (Some value, _) => SafeParseSuccess value
  | (None, issues) => SafeParseError issues
  end.

(** [error.flatten().fieldErrors]. *)
Definition flatten_step (fieldErrors : FieldErrors) (issue : ZodIssue)
  : FieldErrors :=
  match path issue with
  | [] => fieldErrors
  | field :: _ =>
      <[field := (default [] (fieldErrors !! field)
                  ++ [issue_message issue])%list]> fieldErrors
  end.

Definition fieldErrors (error : list ZodIssue) : FieldErrors :=
  fold_left flatten_step error ∅.

Definition library : Zod :=
  Build_Zod ZodTypeAny (list (string * ZodTypeAny)) jsval (list ZodIssue)
            ZodObject safeParse fieldErrors.

End Coercion.

(** A coercion that computes: exact on strings of decimal digits that denote
    a safe integer, and on strings that no numeric literal matches because
    they hold a letter. *)
Definition ToNumber_decimal (v : jsval) : jsnum :=
  match v with
  | JNum n => n
  | JStr s =>
      match digits_value s 0 with
      | Some n => Num (Z.of_N n)
      | None => NaN
      end
  | _ => NaN
  end.

(** [{ a: z.number({ coerce: true }), b: z.string() }]. *)
Definition shape_ab : list (string * ZodTypeAny) :=
  [("a", ZodNumber true); ("b", ZodString)].

End ZodSchemas.

(** ** The fixtures of [parsers.test.ts] *)

Definition zod_decimal : Zod :=
  ZodSchemas.library ZodSchemas.ToNumber_decimal.

Definition schema_ab : @Schema zod_decimal :=
  @SchemaShape zod_decimal ZodSchemas.shape_ab.

Definition validSearchParams : URLSearchParams := [("a", "1"); ("b", "test")].
Definition invalidSearchParams : URLSearchParams :=
  [("a", "test"); ("b", "test")].

Definition validFormData : FormData :=
  [("a", EntryString "1"); ("b", EntryString "test")].
Definition invalidFormData : FormData :=
  [("a", EntryString "test"); ("b", EntryString "test")].

Definition validRouteParams : RouteParams :=
  {[ "a" := Some "1"; "b" := Some "test" ]}.
Definition invalidRouteParams : RouteParams :=
  {[ "a" := Some "test"; "b" := Some "test" ]}.

(** A request event with the given query string, submitted form and route
    parameters, its body not read yet. *)
Definition requestEvent (searchParams : URLSearchParams) (formData : FormData)
    (routeParams : RouteParams) : RequestEvent :=
  {| url_searchParams := searchParams;
     request := {| hasBody := true; bodyUsed := false;
                   decoded := inl formData |};
     params := routeParams |}.

(** [{ a: 1, b: 'test' }] and [{ a: ['Expected number, received nan'] }]. *)
Definition parsed_ab : jsval :=
  JObj {[ "a" := JNum (Num 1); "b" := JStr "test" ]} (JNative ObjectPrototype).

Definition errors_a : FieldErrors :=
  {[ "a" := ["Expected number, received nan"] ]}.

(** The error that the validator reports for the invalid fixtures. *)
Definition issues_a : list ZodSchemas.ZodIssue :=
  [ {| ZodSchemas.path := ["a"];
       ZodSchemas.issue_message := "Expected number, received nan" |} ].

(** ** The normalizer as the specification words it *)

(** The values that the source lists under [key], in source order. *)
Definition values_for (key : string) (searchParams : URLSearchParams)
  : list string :=
  (filter (fun pair => fst pair = key) searchParams).*2.

(** "Single value for singleton fields, ordered sequence for repeated
    fields." *)
Definition collapsed (values : list string) : option jsval :=
  match values with
  | [] => None
  | [value] => Some (JStr value)
  | _ => Some (JArr (JStr <$> values))
  end.

(** Sources on which [params[key]] reads nothing but what the loop stored:
    no key names a property of [Object.prototype], and no value is the empty
    string. *)
Definition plain_source (searchParams : URLSearchParams) : Prop :=
  Forall (fun pair =>
            fst pair ≠ "__proto__"
            ∧ has_name ObjectPrototype_names (fst pair) = false
            ∧ snd pair ≠ "")
         searchParams.

(** The shape of a value of the canonical mapping. *)
Definition single_or_sequence (v : jsval) : Prop :=
  match v with
  | JStr _ => True
  | JArr items => (2 ≤ length items)%nat
  | _ => False
  end.


(** ** Further notions for the normalizer *)

(** Keys under which a property read on [params] finds nothing but what the
    loop has stored, whatever the prototype of [params] is: not [__proto__],
    not a member of [Object.prototype] or [Array.prototype], not an own
    property of an array. *)
Definition ordinary_key (key : string) : bool :=
  negb (String.eqb key "__proto__")
  && negb (String.eqb key "length")
  && negb (has_name ObjectPrototype_names key)
  && negb (has_name ArrayPrototype_names key)
  && match array_index key with
     | None => true
     | Some _ => false
     end.

(** The values of a key that the loop has not overwritten: a stored empty
    string is replaced by the value that follows it. *)
Fixpoint drop_overwritten (values : list string) : list string :=
  match values with
  | [] => []
  | value :: rest =>
      match rest with
      | [] => [value]
      | _ :: _ =>
          if String.eqb value "" then drop_overwritten rest else values
      end
  end.

(** The prototype of [params] after the given values were assigned to
    [__proto__]. *)
Definition installed_prototype (values : list string) : option (list jsval) :=
  match values with
  | [] => None
  | _ => Some (JNative ObjectPrototype :: (JStr <$> values))
  end.





(** A stored value whose only element that need not be a string of the
    source is the head of a sequence. *)
Definition is_string (v : jsval) : Prop :=
  match v with
  | JStr _ => True
  | _ => False
  end.

Definition strings_after_head (v : jsval) : Prop :=
  match v with
  | JStr _ => True
  | JArr (_ :: rest) => rest ≠ [] /\ Forall is_string rest
  | _ => False
  end.


(** * Properties *)

(** ** The normalizer *)

Example getSearchParams_ab :
  getSearchParams (inl [("a", "1"); ("b", "test")])
  = {| params_own := {[ "a" := JStr "1"; "b" := JStr "test" ]};
       params_proto := None |}.
Proof. vm_compute. reflexivity. Qed.

(** A key that occurs three times; the request wrapper is read through
    [url.searchParams]. *)
Example getSearchParams_repeated :
  getSearchParams
    (inr {| url_searchParams := [("t", "x"); ("u", "1"); ("t", "y"); ("t", "z")];
            request := {| hasBody := false; bodyUsed := false;
                          decoded := inr "no content type" |};
            params := ∅ |})
  = {| params_own := {[ "t" := JArr [JStr "x"; JStr "y"; JStr "z"];
                        "u" := JStr "1" ]};
       params_proto := None |}.
Proof. vm_compute. reflexivity. Qed.

(** A key that names a method of [Object.prototype] is read as that method
    before its first assignment. *)
Example getSearchParams_inherited_key :
  getSearchParams (inl [("toString", "x")])
  = {| params_own :=
         {[ "toString" :=
              JArr [JNative (NativeFunction "Object.prototype.toString");
                    JStr "x"] ]};
       params_proto := None |}.
Proof. vm_compute. reflexivity. Qed.

(** An assignment to [__proto__] stores nothing in the mapping. *)
Example getSearchParams_proto_key :
  getSearchParams (inl [("__proto__", "x"); ("__proto__", "y")])
  = {| params_own := ∅;
       params_proto := Some [JNative ObjectPrototype; JStr "x"; JStr "y"] |}.
Proof. vm_compute. reflexivity. Qed.

Lemma Get_own (p : Params) (key : string) (v : jsval) :
  params_own p !! key = Some v -> Get (Params_to_js p) key = v.
Proof. intros Hown. unfold Get, Params_to_js. simpl. by rewrite Hown. Qed.

Lemma locate_InOwn (p : Params) (key : string) :
  locate p key = InOwn -> is_Some (params_own p !! key).
Proof.
  unfold locate. destruct (params_own p !! key) as [v|]; [eauto|].
  repeat case_match; discriminate.
Qed.

(** [locate] names the holder of the value that the property read returns. *)
Lemma locate_InProto (p : Params) (key : string) :
  locate p key = InProto ->
  exists items, params_proto p = Some items
                /\ Get (Params_to_js p) key = JArr items.
Proof.
  unfold locate, Get, Params_to_js. simpl.
  destruct (params_own p !! key) as [v|]; [discriminate|].
  destruct (params_proto p) as [items|]; [|discriminate].
  simpl. unfold Array_get_own, ArrayPrototype_get, ObjectPrototype_get.
  destruct (String.eqb key "length"); [discriminate|].
  destruct (array_index key) as [i|]; [by case_match|].
  destruct (has_name ArrayPrototype_names key); [discriminate|].
  destruct (String.eqb key "__proto__"); [eauto|discriminate].
Qed.

Lemma locate_InProtoItem (p : Params) (key : string) (i : nat) :
  locate p key = InProtoItem i ->
  exists items, params_proto p = Some items
                /\ items !! i = Some (Get (Params_to_js p) key).
Proof.
  unfold locate, Get, Params_to_js. simpl.
  destruct (params_own p !! key) as [v|]; [discriminate|].
  destruct (params_proto p) as [items|]; [|discriminate].
  simpl. unfold Array_get_own.
  destruct (String.eqb key "length"); [discriminate|].
  destruct (array_index key) as [j|]; [|by repeat case_match].
  destruct (Nat.ltb_spec j (length items)) as [Hlt|]; [|discriminate].
  intros [= <-]. exists items. split; [done|].
  destruct (lookup_lt_is_Some_2 items j Hlt) as [v Hv]. by rewrite Hv.
Qed.

Lemma getSearchParams_step_shape (p : Params) (pair : string * string) :
  map_Forall (fun _ v => single_or_sequence v) (params_own p) ->
  map_Forall (fun _ v => single_or_sequence v)
             (params_own (getSearchParams_step p pair)).
Proof.
  intros Hinv. destruct pair as [key value]. unfold getSearchParams_step.
  set (current := Get (Params_to_js p) key).
  destruct (truthy current && isArray current) eqn:Hbranch.
  - unfold push. destruct current as [| | | | |items|] eqn:Hcur; try done.
    destruct (locate p key) eqn:Hloc; simpl; try done.
    apply map_Forall_insert_2; [|done].
    destruct (locate_InOwn _ _ Hloc) as [v Hv].
    pose proof (Get_own _ _ _ Hv) as Hget. fold current in Hget.
    rewrite Hcur in Hget. subst v.
    pose proof (Hinv _ _ Hv) as Hlen. simpl in Hlen |- *.
    rewrite length_app. simpl. lia.
  - unfold assign.
    destruct (String.eqb key "__proto__"), (params_own p !! key),
      (truthy current); simpl; try done;
      try (apply map_Forall_insert_2; [simpl; auto | done]).
Qed.

Lemma getSearchParams_loop_shape (searchParams : URLSearchParams) (p : Params) :
  map_Forall (fun _ v => single_or_sequence v) (params_own p) ->
  map_Forall (fun _ v => single_or_sequence v)
             (params_own (getSearchParams_loop searchParams p)).
Proof.
  revert p. induction searchParams as [|pair rest IH]; intros p Hinv; [done|].
  simpl. apply IH. by apply getSearchParams_step_shape.
Qed.

Lemma getSearchParams_shape (data : URLSearchParams + RequestEvent) :
  map_Forall (fun _ v => single_or_sequence v)
             (params_own (getSearchParams data)).
Proof.
  unfold getSearchParams. apply getSearchParams_loop_shape. simpl.
  apply map_Forall_empty.
Qed.

(** C9.  Every value of the canonical mapping built by [getSearchParams], for
    a query-string source and for a form-field source alike, is a single
    string or a sequence of at least two elements: no key is mapped to an
    empty or a one-element sequence. *)
Theorem canonical_values_single_or_sequence :
  (forall data : URLSearchParams + RequestEvent,
     map_Forall (fun _ v => single_or_sequence v)
                (params_own (getSearchParams data)))
  /\ (forall data : FormData + RequestEvent,
        match fst (getFormData data) with
        | Fulfilled formData =>
            map_Forall (fun _ v => single_or_sequence v) (params_own formData)
        | Rejected _ => True
        end).
Proof.
  split; [apply getSearchParams_shape|].
  intros [formData|event]; simpl; [apply getSearchParams_shape|].
  destruct (Request_formData (request event)) as [[formData|e] request'];
    simpl; [apply getSearchParams_shape|done].
Qed.

(** ** The normalizer against the specification's wording *)

Lemma values_for_snoc (key : string) (searchParams : URLSearchParams)
    (k v : string) :
  values_for key (searchParams ++ [(k, v)])
  = (values_for key searchParams ++ if decide (k = key) then [v] else [])%list.
Proof.
  unfold values_for. rewrite filter_app, fmap_app. f_equal.
  rewrite filter_cons, filter_nil. simpl. by case_decide.
Qed.

Lemma values_for_nonempty (key : string) (searchParams : URLSearchParams) :
  plain_source searchParams ->
  Forall (fun value => value ≠ "") (values_for key searchParams).
Proof.
  unfold plain_source, values_for. intros Hplain.
  apply Forall_fmap. apply Forall_forall. intros pair Hin.
  apply list_elem_of_filter in Hin as [_ Hin].
  rewrite Forall_forall in Hplain. by apply Hplain.
Qed.

Lemma truthy_JStr (s : string) : s ≠ "" -> truthy (JStr s) = true.
Proof.
  intros Hne. simpl. destruct (String.eqb_spec s ""); [done|reflexivity].
Qed.

(** On a plain source the loop keeps [Object.prototype] as the prototype and
    stores, under every key, the collapsed list of the key's values. *)
Lemma getSearchParams_loop_plain (searchParams : URLSearchParams) :
  plain_source searchParams ->
  let p := getSearchParams_loop searchParams
             {| params_own := ∅; params_proto := None |} in
  params_proto p = None
  /\ forall key, params_own p !! key = collapsed (values_for key searchParams).
Proof.
  induction searchParams as [|[k v] prefix IH] using rev_ind; intros Hplain.
  { simpl. split; [done|]. intros key. by rewrite lookup_empty. }
  apply Forall_app in Hplain as [Hprefix Hlast].
  apply Forall_singleton in Hlast as (Hproto & Hnames & Hvalue).
  cbn [fst snd] in Hproto, Hnames, Hvalue.
  specialize (IH Hprefix) as [IHproto IHown].
  pose proof (values_for_nonempty k _ Hprefix) as Hnonempty.
  unfold getSearchParams_loop in *. rewrite fold_left_app. simpl.
  set (p := fold_left getSearchParams_step prefix _) in *.
  assert (Hget : Get (Params_to_js p) k
                 = default JUndefined (collapsed (values_for k prefix))).
  { unfold Get, Params_to_js. rewrite IHproto. simpl. rewrite IHown.
    destruct (collapsed (values_for k prefix)); [done|]. simpl.
    unfold ObjectPrototype_get. rewrite Hnames.
    destruct (String.eqb_spec k "__proto__"); [done|reflexivity]. }
  assert (Hkey : String.eqb k "__proto__" = false).
  { destruct (String.eqb_spec k "__proto__"); [done|reflexivity]. }
  unfold getSearchParams_step. rewrite Hget.
  destruct (values_for k prefix) as [|v0 [|v1 rest]] eqn:Hvalues;
    cbn [collapsed default from_option id].
  - (* first occurrence *)
    unfold assign. rewrite Hkey. simpl. split; [done|]. intros key.
    rewrite values_for_snoc. destruct (decide (k = key)) as [<-|Hne].
    + by rewrite lookup_insert_eq, Hvalues.
    + rewrite lookup_insert_ne by done. rewrite app_nil_r. apply IHown.
  - (* second occurrence *)
    apply Forall_cons in Hnonempty as [Hv0 _].
    rewrite (truthy_JStr _ Hv0). cbn [isArray andb].
    unfold assign. rewrite Hkey. simpl. split; [done|]. intros key.
    rewrite values_for_snoc. destruct (decide (k = key)) as [<-|Hne].
    + by rewrite lookup_insert_eq, Hvalues.
    + rewrite lookup_insert_ne by done. rewrite app_nil_r. apply IHown.
  - (* later occurrences *)
    unfold push, locate. rewrite IHown, Hvalues. simpl.
    split; [done|]. intros key.
    rewrite values_for_snoc. destruct (decide (k = key)) as [<-|Hne].
    + rewrite lookup_insert_eq, Hvalues. simpl. by rewrite fmap_app.
    + rewrite lookup_insert_ne by done. rewrite app_nil_r. apply IHown.
Qed.

(** The specification's property of the normalizer holds on plain sources:
    a repeated key maps to the sequence of its values in source order, any
    other key to its single value. *)
Lemma getSearchParams_plain (searchParams : URLSearchParams) (key : string) :
  plain_source searchParams ->
  params_own (getSearchParams (inl searchParams)) !! key
  = collapsed (values_for key searchParams).
Proof.
  intros Hplain. apply (getSearchParams_loop_plain searchParams Hplain).
Qed.

(** C1.  The normalizer does not keep every value of a repeated key: for the
    query string [?a=&a=x] the specification asks for the sequence of both
    values, and [getSearchParams] returns the single string ["x"], because
    the empty first value makes [current] falsy at the second occurrence. *)
Theorem getSearchParams_loses_empty_value :
  getSearchParams (inl [("a", ""); ("a", "x")])
  = {| params_own := {[ "a" := JStr "x" ]}; params_proto := None |}
  /\ collapsed (values_for "a" [("a", ""); ("a", "x")])
     = Some (JArr [JStr ""; JStr "x"]).
Proof. split; vm_compute; reflexivity. Qed.

(** An empty value that is not the stored one is kept. *)
Example getSearchParams_empty_later :
  getSearchParams (inl [("a", "x"); ("a", ""); ("a", "y")])
  = {| params_own := {[ "a" := JArr [JStr "x"; JStr ""; JStr "y"] ]};
       params_proto := None |}.
Proof. vm_compute. reflexivity. Qed.


(** ** Route parameters: the raw mapping and the request wrapper *)

Lemma Get_params_RouteParams (routeParams : RouteParams) :
  Get (RouteParams_to_js routeParams) "params"
  = match routeParams !! "params" with
    | Some (Some s) => JStr s
    | _ => JUndefined
    end.
Proof.
  unfold Get, RouteParams_to_js. simpl. rewrite lookup_fmap.
  destruct (routeParams !! "params") as [[s|]|]; reflexivity.
Qed.

Lemma isRequestEvent_RouteParams (routeParams : RouteParams) :
  isRequestEvent (RouteParams_to_js routeParams) = false.
Proof.
  unfold isRequestEvent. rewrite Get_params_RouteParams.
  destruct (routeParams !! "params") as [[s|]|]; reflexivity.
Qed.

Lemma Get_params_RequestEvent (event : RequestEvent) :
  Get (RequestEvent_to_js event) "params" = RouteParams_to_js (params event).
Proof.
  unfold Get, RequestEvent_to_js. simpl. by rewrite lookup_insert_eq.
Qed.

Lemma isRequestEvent_RequestEvent (event : RequestEvent) :
  isRequestEvent (RequestEvent_to_js event) = true.
Proof.
  unfold isRequestEvent. rewrite Get_params_RequestEvent. reflexivity.
Qed.

(** A raw mapping with a key named [params]. *)
Example isRequestEvent_params_key :
  isRequestEvent (RouteParams_to_js {[ "params" := Some "x"; "a" := Some "1" ]})
  = false.
Proof. vm_compute. reflexivity. Qed.

Section ParserProperties.
Context `{Zod}.

Lemma parseRouteParams_raw (routeParams : RouteParams) (schema : Schema) :
  parseRouteParams (inl routeParams) schema
  = parse (RouteParams_to_js routeParams) schema
  /\ parseRouteParamsSafe (inl routeParams) schema
     = parseSafe (RouteParams_to_js routeParams) schema.
Proof.
  unfold parseRouteParams, parseRouteParamsSafe. simpl.
  by rewrite isRequestEvent_RouteParams.
Qed.

Lemma parseRouteParams_event (event : RequestEvent) (schema : Schema) :
  parseRouteParams (inr event) schema
  = parse (RouteParams_to_js (params event)) schema
  /\ parseRouteParamsSafe (inr event) schema
     = parseSafe (RouteParams_to_js (params event)) schema.
Proof.
  unfold parseRouteParams, parseRouteParamsSafe. simpl.
  by rewrite isRequestEvent_RequestEvent, Get_params_RequestEvent.
Qed.

(** C10.  [isRequestEvent] is false on every raw route-parameter mapping,
    also on one with a key named [params], so the route operations validate
    the mapping itself; it is true on every request event, and the route
    operations then validate the event's [params]. *)
Theorem isRequestEvent_discriminates (schema : Schema) :
  (forall routeParams : RouteParams,
     isRequestEvent (RouteParams_to_js routeParams) = false
     /\ parseRouteParams (inl routeParams) schema
        = parse (RouteParams_to_js routeParams) schema
     /\ parseRouteParamsSafe (inl routeParams) schema
        = parseSafe (RouteParams_to_js routeParams) schema)
  /\ (forall event : RequestEvent,
        isRequestEvent (RequestEvent_to_js event) = true
        /\ parseRouteParams (inr event) schema
           = parse (RouteParams_to_js (params event)) schema
        /\ parseRouteParamsSafe (inr event) schema
           = parseSafe (RouteParams_to_js (params event)) schema).
Proof.
  split.
  - intros routeParams. split; [apply isRequestEvent_RouteParams|].
    apply parseRouteParams_raw.
  - intros event. split; [apply isRequestEvent_RequestEvent|].
    apply parseRouteParams_event.
Qed.

(** C6.  The route operations give the same result on a plain mapping and on
    a request event whose [params] is that mapping. *)
Theorem parseRouteParams_wrapper_agrees
    (routeParams : RouteParams) (searchParams : URLSearchParams)
    (request : Request) (schema : Schema) :
  let event := {| url_searchParams := searchParams;
                  request := request;
                  params := routeParams |} in
  parseRouteParams (inr event) schema = parseRouteParams (inl routeParams) schema
  /\ parseRouteParamsSafe (inr event) schema
     = parseRouteParamsSafe (inl routeParams) schema.
Proof.
  intros event.
  destruct (parseRouteParams_event event schema) as [-> ->].
  destruct (parseRouteParams_raw routeParams schema) as [-> ->].
  done.
Qed.

(** ** The result shaper *)

Lemma parse_invalid (data : jsval) (schema : Schema) (e : ZodError) :
  safeParse (getSchema schema) data = SafeParseError e ->
  parse data schema
  = Throw (ThrowHttpError
             {| status := 400;
                error_body := {| message := "Parsing Failed";
                                 errors := flatten_fieldErrors e |} |}).
Proof. intros Hinvalid. unfold parse. by rewrite Hinvalid. Qed.

Lemma parseSafe_invalid (data : jsval) (schema : Schema) (e : ZodError) :
  safeParse (getSchema schema) data = SafeParseError e ->
  parseSafe data schema
  = SafeFailure
      {| safe_errors := flatten_fieldErrors e;
         response :=
           {| failure_status := 400;
              failure_data :=
                {| failure_errors := flatten_fieldErrors e |} |} |}.
Proof. intros Hinvalid. unfold parseSafe. by rewrite Hinvalid. Qed.

Lemma parse_valid (data : jsval) (schema : Schema) (out : Output) :
  safeParse (getSchema schema) data = SafeParseSuccess out ->
  parse data schema = Return out /\ parseSafe data schema = SafeData out.
Proof. intros Hvalid. unfold parse, parseSafe. by rewrite Hvalid. Qed.

(** The safe result is a success exactly when the strict call returns, and
    with the same value. *)
Lemma parseSafe_parse (data : jsval) (schema : Schema) (out : Output) :
  parseSafe data schema = SafeData out <-> parse data schema = Return out.
Proof.
  unfold parse, parseSafe.
  destruct (safeParse (getSchema schema) data) as [d|e];
    split; intros Heq; by simplify_eq.
Qed.

(** C2.  On an input that fails validation with the error [e], each strict
    operation raises the HTTP error of status 400 whose body holds
    [e.flatten().fieldErrors] under [errors], and each safe operation
    returns (for the form operation: fulfils with) the failure record that
    holds the same map. *)
Theorem invalid_input_raises_400_or_returns_failure
    (schema : Schema) (e : ZodError) :
  let raised :=
    ThrowHttpError
      {| status := 400;
         error_body := {| message := "Parsing Failed";
                          errors := flatten_fieldErrors e |} |} in
  let failure :=
    SafeFailure
      {| safe_errors := flatten_fieldErrors e;
         response :=
           {| failure_status := 400;
              failure_data :=
                {| failure_errors := flatten_fieldErrors e |} |} |} in
  (forall data : jsval,
     safeParse (getSchema schema) data = SafeParseError e ->
     parse data schema = Throw raised /\ parseSafe data schema = failure)
  /\ (forall data : URLSearchParams + RequestEvent,
        safeParse (getSchema schema) (Params_to_js (getSearchParams data))
        = SafeParseError e ->
        parseSearchParams data schema = Throw raised
        /\ parseSearchParamsSafe data schema = failure)
  /\ (forall (data data' : FormData + RequestEvent) (formData : Params),
        getFormData data = (Fulfilled formData, data') ->
        safeParse (getSchema schema) (Params_to_js formData)
        = SafeParseError e ->
        parseFormData data schema = (Rejected raised, data')
        /\ parseFormDataSafe data schema = (Fulfilled failure, data'))
  /\ (forall routeParams : RouteParams,
        safeParse (getSchema schema) (RouteParams_to_js routeParams)
        = SafeParseError e ->
        parseRouteParams (inl routeParams) schema = Throw raised
        /\ parseRouteParamsSafe (inl routeParams) schema = failure)
  /\ (forall event : RequestEvent,
        safeParse (getSchema schema) (RouteParams_to_js (params event))
        = SafeParseError e ->
        parseRouteParams (inr event) schema = Throw raised
        /\ parseRouteParamsSafe (inr event) schema = failure).
Proof.
  intros raised failure. split; [|split; [|split; [|split]]].
  - intros data Hinvalid. split.
    + by apply parse_invalid.
    + by apply parseSafe_invalid.
  - intros data Hinvalid. split.
    + unfold parseSearchParams. by apply parse_invalid.
    + unfold parseSearchParamsSafe. by apply parseSafe_invalid.
  - intros data data' formData Hread Hinvalid. split.
    + unfold parseFormData. rewrite Hread. simpl.
      by rewrite (parse_invalid _ _ _ Hinvalid).
    + unfold parseFormDataSafe. rewrite Hread. simpl.
      by rewrite (parseSafe_invalid _ _ _ Hinvalid).
  - intros routeParams Hinvalid.
    destruct (parseRouteParams_raw routeParams schema) as [-> ->]. split.
    + by apply parse_invalid.
    + by apply parseSafe_invalid.
  - intros event Hinvalid.
    destruct (parseRouteParams_event event schema) as [-> ->]. split.
    + by apply parse_invalid.
    + by apply parseSafe_invalid.
Qed.

(** C4.  Whenever the safe variant of an operation yields a success, the
    strict variant on the same input and schema returns the data of that
    success; an input that the schema accepts gives the parsed value in both
    variants. *)
Theorem strict_and_safe_agree_on_valid_input (schema : Schema) :
  (forall (data : jsval) (out : Output),
     safeParse (getSchema schema) data = SafeParseSuccess out ->
     parse data schema = Return out /\ parseSafe data schema = SafeData out)
  /\ (forall (data : jsval) (out : Output),
        parseSafe data schema = SafeData out -> parse data schema = Return out)
  /\ (forall (data : URLSearchParams + RequestEvent) (out : Output),
        parseSearchParamsSafe data schema = SafeData out ->
        parseSearchParams data schema = Return out)
  /\ (forall (data data' : FormData + RequestEvent) (out : Output),
        parseFormDataSafe data schema = (Fulfilled (SafeData out), data') ->
        parseFormData data schema = (Fulfilled out, data'))
  /\ (forall (data : RouteParams + RequestEvent) (out : Output),
        parseRouteParamsSafe data schema = SafeData out ->
        parseRouteParams data schema = Return out).
Proof.
  repeat split.
  - by apply parse_valid.
  - by apply parse_valid.
  - intros data out. apply parseSafe_parse.
  - intros data out. apply parseSafe_parse.
  - intros data data' out. unfold parseFormDataSafe, parseFormData.
    destruct (getFormData data) as [[formData|err] rest]; simpl;
      intros Hsafe; [|discriminate].
    injection Hsafe as Hsafe ->. apply parseSafe_parse in Hsafe.
    by rewrite Hsafe.
  - intros data out. unfold parseRouteParamsSafe, parseRouteParams. simpl.
    apply parseSafe_parse.
Qed.

(** ** The schema adapter *)

(** C5.  [getSchema] returns a schema instance unchanged and wraps a raw
    shape with [z.object]; so every operation gives the same result for a
    raw shape and for the object schema built from it. *)
Theorem raw_shape_parses_as_object_schema (shape : ZodRawShape) :
  (forall schema : ZodType, getSchema (SchemaInstance schema) = schema)
  /\ getSchema (SchemaShape shape) = z_object shape
  /\ (forall data : jsval,
        parse data (SchemaShape shape)
        = parse data (SchemaInstance (z_object shape))
        /\ parseSafe data (SchemaShape shape)
           = parseSafe data (SchemaInstance (z_object shape)))
  /\ (forall data : URLSearchParams + RequestEvent,
        parseSearchParams data (SchemaShape shape)
        = parseSearchParams data (SchemaInstance (z_object shape))
        /\ parseSearchParamsSafe data (SchemaShape shape)
           = parseSearchParamsSafe data (SchemaInstance (z_object shape)))
  /\ (forall data : FormData + RequestEvent,
        parseFormData data (SchemaShape shape)
        = parseFormData data (SchemaInstance (z_object shape))
        /\ parseFormDataSafe data (SchemaShape shape)
           = parseFormDataSafe data (SchemaInstance (z_object shape)))
  /\ (forall data : RouteParams + RequestEvent,
        parseRouteParams data (SchemaShape shape)
        = parseRouteParams data (SchemaInstance (z_object shape))
        /\ parseRouteParamsSafe data (SchemaShape shape)
           = parseRouteParamsSafe data (SchemaInstance (z_object shape))).
Proof. repeat split. Qed.

(** ** Form data *)

Lemma getFormData_container (formData : FormData) :
  getFormData (inl formData)
  = (Fulfilled (getSearchParams (inl (new_URLSearchParams formData))),
     inl formData).
Proof. reflexivity. Qed.

Lemma getFormData_event (event : RequestEvent) :
  snd (getFormData (inr event)) = inr (body_read event).
Proof.
  unfold getFormData, body_read.
  by destruct (Request_formData (request event)).
Qed.

(** The entries of a form whose fields are all strings convert to themselves. *)
Lemma new_URLSearchParams_strings (searchParams : URLSearchParams) :
  new_URLSearchParams (prod_map id EntryString <$> searchParams) = searchParams.
Proof.
  unfold new_URLSearchParams.
  induction searchParams as [|[k v] rest IH]; [done|].
  simpl. f_equal. exact IH.
Qed.

(** C7.  The form path normalizes with [getSearchParams] itself: a form-data
    container, and a request wrapper whose body decodes to the same form
    data, both yield [getSearchParams] of the form's entries; hence the form
    operations on string fields give what the query-string operations give
    on the same pairs, and in particular the fields [a=1], [b=test] give the
    result of the query string [?a=1&b=test], whatever the schema. *)
Theorem form_path_reuses_query_normalizer (schema : Schema) :
  (forall formData : FormData,
     fst (getFormData (inl formData))
     = Fulfilled (getSearchParams (inl (new_URLSearchParams formData))))
  /\ (forall (formData : FormData) (searchParams : URLSearchParams)
             (routeParams : RouteParams),
        fst (getFormData
               (inr {| url_searchParams := searchParams;
                       request := {| hasBody := true; bodyUsed := false;
                                     decoded := inl formData |};
                       params := routeParams |}))
        = Fulfilled (getSearchParams (inl (new_URLSearchParams formData))))
  /\ (forall searchParams : URLSearchParams,
        fst (parseFormData (inl (prod_map id EntryString <$> searchParams))
                           schema)
        = settle (parseSearchParams (inl searchParams) schema)
        /\ fst (parseFormDataSafe
                  (inl (prod_map id EntryString <$> searchParams)) schema)
           = Fulfilled (parseSearchParamsSafe (inl searchParams) schema))
  /\ fst (parseFormData (inl [("a", EntryString "1"); ("b", EntryString "test")])
                        schema)
     = settle (parseSearchParams (inl [("a", "1"); ("b", "test")]) schema).
Proof.
  split; [done|]. split; [done|]. split; [|done].
  intros searchParams.
  unfold parseFormData, parseFormDataSafe, parseSearchParams,
    parseSearchParamsSafe.
  rewrite getFormData_container, new_URLSearchParams_strings. simpl.
  split; [|done]. by destruct (parse _ schema).
Qed.

(** ** State *)

Lemma Request_formData_used (r : Request) :
  hasBody r = true ->
  Request_formData (snd (Request_formData r)) = (Rejected ThrowBodyUnusable,
                                                  snd (Request_formData r)).
Proof.
  destruct r as [has used content]. simpl. intros ->.
  unfold Request_formData. simpl. by destruct used.
Qed.

(** Without a body there is nothing to use up. *)
Lemma Request_formData_no_body (r : Request) :
  hasBody r = false -> bodyUsed r = false -> snd (Request_formData r) = r.
Proof.
  destruct r as [has used content]. simpl. intros -> ->. reflexivity.
Qed.

(** C8, as the code has it, on repeated calls of the public operations.
    - The query-string and route operations read nothing of the request: on
      request wrappers that differ only in the request (before and after a
      form call, for instance) they return equal results.
    - [parseFormData] and [parseFormDataSafe] leave their argument as it is
      and, called again on it with the same schema, give the result of the
      first call, whenever the argument is a form-data container, a request
      wrapper whose request has no body, or one whose body has been read.
    - Given a request wrapper whose request has a body that has not been
      read, they change the wrapper in one place, the body now being marked
      as used, and the same call made again on the wrapper is rejected by
      the body read, which the first call is not. *)
Theorem only_the_request_body_changes (schema : Schema) :
  (forall (searchParams : URLSearchParams) (routeParams : RouteParams)
          (request request' : Request),
     let event := {| url_searchParams := searchParams;
                     request := request;
                     params := routeParams |} in
     let event' := {| url_searchParams := searchParams;
                      request := request';
                      params := routeParams |} in
     parseSearchParams (inr event') schema
     = parseSearchParams (inr event) schema
     /\ parseSearchParamsSafe (inr event') schema
        = parseSearchParamsSafe (inr event) schema
     /\ parseRouteParams (inr event') schema
        = parseRouteParams (inr event) schema
     /\ parseRouteParamsSafe (inr event') schema
        = parseRouteParamsSafe (inr event) schema)
  /\ (forall data : FormData + RequestEvent,
        unread_body data = false ->
        snd (parseFormData data schema) = data
        /\ fst (parseFormData (snd (parseFormData data schema)) schema)
           = fst (parseFormData data schema)
        /\ snd (parseFormDataSafe data schema) = data
        /\ fst (parseFormDataSafe (snd (parseFormDataSafe data schema)) schema)
           = fst (parseFormDataSafe data schema))
  /\ (forall event : RequestEvent,
        unread_body (inr event) = true ->
        let after := {| url_searchParams := url_searchParams event;
                        request := {| hasBody := true;
                                      bodyUsed := true;
                                      decoded := decoded (request event) |};
                        params := params event |} in
        snd (parseFormData (inr event) schema) = inr after
        /\ snd (parseFormDataSafe (inr event) schema) = inr after
        /\ fst (parseFormData (inr after) schema) = Rejected ThrowBodyUnusable
        /\ fst (parseFormDataSafe (inr after) schema)
           = Rejected ThrowBodyUnusable
        /\ fst (parseFormData (inr event) schema) ≠ Rejected ThrowBodyUnusable
        /\ fst (parseFormDataSafe (inr event) schema)
           ≠ Rejected ThrowBodyUnusable).
Proof.
  split; [|split].
  - intros searchParams routeParams request request' event event'.
    repeat split.
  - intros [formData|[searchParams [has used content] routeParams]] Hunread.
    + repeat split.
    + simpl in Hunread.
      unfold parseFormData, parseFormDataSafe, getFormData, Request_formData.
      destruct has, used; try discriminate; simpl; repeat split.
  - intros [searchParams [has used content] routeParams] Hunread.
    simpl in Hunread. apply andb_true_iff in Hunread as [-> Hused].
    apply negb_true_iff in Hused. subst used.
    unfold parseFormData, parseFormDataSafe, getFormData, Request_formData.
    simpl. repeat split.
    + destruct content as [formData|reason]; simpl; [|discriminate].
      unfold parse. by destruct (safeParse _ _).
    + by destruct content.
Qed.

End ParserProperties.

(** ** The earlier variant *)

Section LegacyProperties.
Context `{Zod}.

(** The earlier [parse] throws the failure [fail(400, { errors })], whose
    data is the field-error map and nothing else; the earlier [parseSafe] is
    the validator's own result. *)
Lemma Legacy_parse_invalid (data : jsval) (schema : Schema) (e : ZodError) :
  safeParse (getSchema schema) data = SafeParseError e ->
  Legacy.parse data schema
  = Throw (ThrowActionFailure
             {| failure_status := 400;
                failure_data :=
                  {| failure_errors := flatten_fieldErrors e |} |})
  /\ Legacy.parseSafe data schema = SafeParseError e.
Proof.
  intros Hinvalid. unfold Legacy.parse, Legacy.parseSafe. by rewrite Hinvalid.
Qed.

Lemma Legacy_parse_valid (data : jsval) (schema : Schema) (out : Output) :
  Legacy.parseSafe data schema = SafeParseSuccess out <->
  Legacy.parse data schema = Return out.
Proof.
  unfold Legacy.parse.
  destruct (Legacy.parseSafe data schema) as [d|e];
    split; intros Heq; by simplify_eq.
Qed.

(** Both variants return the same value on an input the schema accepts. *)
Lemma Legacy_parse_agrees (data : jsval) (schema : Schema) (out : Output) :
  Legacy.parse data schema = Return out <-> parse data schema = Return out.
Proof.
  unfold Legacy.parse, Legacy.parseSafe, parse.
  destruct (safeParse (getSchema schema) data) as [d|e];
    split; intros Heq; by simplify_eq.
Qed.

End LegacyProperties.

(** ** The examples of the test-suite, on the validator instance *)

Section Examples.
Variable ToNumber : jsval -> jsnum.
Hypothesis ToNumber_1 : ToNumber (JStr "1") = Num 1.
Hypothesis ToNumber_test : ToNumber (JStr "test") = NaN.

Let zod : Zod := ZodSchemas.library ToNumber.
Let schema : Schema := @SchemaShape zod ZodSchemas.shape_ab.

Lemma safeParse_valid_ab :
  @safeParse zod (@getSchema zod schema)
    (JObj {[ "a" := JStr "1"; "b" := JStr "test" ]} (JNative ObjectPrototype))
  = SafeParseSuccess
      (JObj {[ "a" := JNum (Num 1); "b" := JStr "test" ]}
            (JNative ObjectPrototype)).
Proof. vm_compute. rewrite ToNumber_1. vm_compute. reflexivity. Qed.

Lemma safeParse_invalid_ab :
  @safeParse zod (@getSchema zod schema)
    (JObj {[ "a" := JStr "test"; "b" := JStr "test" ]}
          (JNative ObjectPrototype))
  = SafeParseError
      [ {| ZodSchemas.path := ["a"];
           ZodSchemas.issue_message := "Expected number, received nan" |} ].
Proof. vm_compute. rewrite ToNumber_test. vm_compute. reflexivity. Qed.

(** C3.  With the schema [{ a: z.number({ coerce: true }), b: z.string() }],
    [parseSearchParams] returns [{ a: 1, b: 'test' }] for [?a=1&b=test]; for
    [?a=test&b=test] it raises the HTTP error of status 400 whose body is
    [{ message: 'Parsing Failed', errors: { a: ['Expected number, received
    nan'] } }]: the body carries [message] besides [errors]. *)
Theorem parseSearchParams_examples :
  @parseSearchParams zod (inl validSearchParams) schema = Return parsed_ab
  /\ @parseSearchParams zod (inl invalidSearchParams) schema
     = Throw (ThrowHttpError
                {| status := 400;
                   error_body := {| message := "Parsing Failed";
                                    errors := errors_a |} |}).
Proof.
  split.
  - vm_compute. rewrite ToNumber_1. vm_compute. reflexivity.
  - vm_compute. rewrite ToNumber_test. vm_compute. reflexivity.
Qed.

(** The earlier variant raises [fail(400, { errors })] on the same input:
    the payload is the field-error map alone. *)
Lemma Legacy_parseSearchParams_example :
  @Legacy.parseSearchParams zod (inl invalidSearchParams) schema
  = Throw (ThrowActionFailure
             {| failure_status := 400;
                failure_data := {| failure_errors := errors_a |} |}).
Proof. vm_compute. rewrite ToNumber_test. vm_compute. reflexivity. Qed.

(** The route example of the specification. *)
Lemma parseRouteParams_examples :
  @parseRouteParams zod (inl validRouteParams) schema = Return parsed_ab
  /\ @parseRouteParamsSafe zod (inl invalidRouteParams) schema
     = SafeFailure
         {| safe_errors := errors_a;
            response := {| failure_status := 400;
                           failure_data :=
                             {| failure_errors := errors_a |} |} |}.
Proof.
  split.
  - vm_compute. rewrite ToNumber_1. vm_compute. reflexivity.
  - vm_compute. rewrite ToNumber_test. vm_compute. reflexivity.
Qed.

End Examples.

(** ** The theorems at the fixtures *)

Lemma parseSearchParams_examples_witness :
  ZodSchemas.ToNumber_decimal (JStr "1") = Num 1
  /\ ZodSchemas.ToNumber_decimal (JStr "test") = NaN
  /\ @parseSearchParams zod_decimal (inl validSearchParams) schema_ab
     = Return parsed_ab
  /\ @parseSearchParams zod_decimal (inl invalidSearchParams) schema_ab
     = Throw (ThrowHttpError
                {| status := 400;
                   error_body := {| message := "Parsing Failed";
                                    errors := errors_a |} |}).
Proof.
  split; [reflexivity|]. split; [reflexivity|].
  apply (parseSearchParams_examples ZodSchemas.ToNumber_decimal); reflexivity.
Defined.

Lemma invalid_input_witness :
  let raised :=
    ThrowHttpError
      {| status := 400;
         error_body := {| message := "Parsing Failed";
                          errors := @flatten_fieldErrors zod_decimal issues_a |} |}
  in
  @flatten_fieldErrors zod_decimal issues_a = errors_a
  /\ @parse zod_decimal (Params_to_js (getSearchParams (inl invalidSearchParams)))
            schema_ab = Throw raised
  /\ @parseSearchParams zod_decimal (inl invalidSearchParams) schema_ab
     = Throw raised
  /\ fst (@parseFormData zod_decimal
            (inr (requestEvent [] invalidFormData ∅)) schema_ab)
     = Rejected raised
  /\ @parseRouteParams zod_decimal (inl invalidRouteParams) schema_ab
     = Throw raised
  /\ @parseRouteParams zod_decimal
       (inr (requestEvent [] [] invalidRouteParams)) schema_ab
     = Throw raised.
Proof.
  intros raised.
  destruct (@invalid_input_raises_400_or_returns_failure
              zod_decimal schema_ab issues_a)
    as (Hparse & Hsearch & Hform & Hraw & Hevent).
  split; [vm_compute; reflexivity|].
  split; [eapply proj1, Hparse; vm_compute; reflexivity|].
  split; [eapply proj1, Hsearch; vm_compute; reflexivity|].
  split.
  { destruct (Hform (inr (requestEvent [] invalidFormData ∅))
                (inr (body_read (requestEvent [] invalidFormData ∅)))
                (getSearchParams (inl invalidSearchParams)))
      as [Hstrict _]; [vm_compute; reflexivity | vm_compute; reflexivity|].
    by rewrite Hstrict. }
  split; [eapply proj1, Hraw; vm_compute; reflexivity|].
  eapply proj1, Hevent; vm_compute; reflexivity.
Defined.

Lemma valid_input_witness :
  @parse zod_decimal (Params_to_js (getSearchParams (inl validSearchParams)))
         schema_ab = Return parsed_ab
  /\ @parse zod_decimal (RouteParams_to_js validRouteParams) schema_ab
     = Return parsed_ab
  /\ @parseSearchParams zod_decimal (inl validSearchParams) schema_ab
     = Return parsed_ab
  /\ @parseFormData zod_decimal (inr (requestEvent [] validFormData ∅)) schema_ab
     = (Fulfilled parsed_ab, inr (body_read (requestEvent [] validFormData ∅)))
  /\ @parseRouteParams zod_decimal
       (inr (requestEvent [] [] validRouteParams)) schema_ab
     = Return parsed_ab.
Proof.
  destruct (@strict_and_safe_agree_on_valid_input zod_decimal schema_ab)
    as (Hvalid & Hparse & Hsearch & Hform & Hroute).
  split; [eapply proj1, Hvalid; vm_compute; reflexivity|].
  split; [apply Hparse; vm_compute; reflexivity|].
  split; [apply Hsearch; vm_compute; reflexivity|].
  split; [apply Hform; vm_compute; reflexivity|].
  apply Hroute; vm_compute; reflexivity.
Defined.

Lemma request_body_witness :
  let fresh := requestEvent validSearchParams validFormData validRouteParams in
  let used := body_read fresh in
  unread_body (inr fresh) = true
  /\ unread_body (inr used) = false
  /\ unread_body (inl validFormData) = false
  /\ snd (@parseFormData zod_decimal (inr fresh) schema_ab) = inr used
  /\ fst (@parseFormData zod_decimal (inr used) schema_ab)
     = Rejected ThrowBodyUnusable
  /\ fst (@parseFormData zod_decimal (inr fresh) schema_ab)
     ≠ Rejected ThrowBodyUnusable
  /\ snd (@parseFormData zod_decimal (inr used) schema_ab) = inr used
  /\ fst (@parseFormData zod_decimal
            (snd (@parseFormData zod_decimal (inr used) schema_ab)) schema_ab)
     = fst (@parseFormData zod_decimal (inr used) schema_ab)
  /\ snd (@parseFormData zod_decimal (inl validFormData) schema_ab)
     = inl validFormData.
Proof.
  intros fresh used.
  destruct (@only_the_request_body_changes zod_decimal schema_ab)
    as (_ & Hrepeat & Hread).
  assert (Hfresh : unread_body (inr fresh) = true) by reflexivity.
  assert (Hused : unread_body (inr used) = false) by reflexivity.
  assert (Hform : unread_body (inl validFormData) = false) by reflexivity.
  destruct (Hread fresh Hfresh) as (Hafter & _ & Hsecond & _ & Hfirst & _).
  destruct (Hrepeat (inr used) Hused) as (Hsame & Hagain & _).
  destruct (Hrepeat (inl validFormData) Hform) as (Hcontainer & _).
  split; [exact Hfresh|]. split; [exact Hused|]. split; [exact Hform|].
  split; [exact Hafter|]. split; [exact Hsecond|]. split; [exact Hfirst|].
  split; [exact Hsame|]. split; [exact Hagain|]. exact Hcontainer.
Defined.

(** C8, as stated, fails: the first call of [parseFormData] on a request
    event reads the body of the request, which changes the event, and the
    same call made again does not produce the first call's result but is
    rejected. *)
Lemma parseFormData_twice_on_one_event :
  let event := requestEvent [] validFormData ∅ in
  let first := @parseFormData zod_decimal (inr event) schema_ab in
  let second := @parseFormData zod_decimal (snd first) schema_ab in
  fst first = Fulfilled parsed_ab
  /\ snd first ≠ inr event
  /\ fst second = Rejected ThrowBodyUnusable
  /\ fst second ≠ fst first.
Proof.
  intros event first second.
  assert (Hfirst : fst first = Fulfilled parsed_ab) by (vm_compute; reflexivity).
  assert (Hsecond : fst second = Rejected ThrowBodyUnusable)
    by (vm_compute; reflexivity).
  split; [exact Hfirst|]. split.
  - intros Heq. apply (f_equal (fun data =>
                         match data with
                         | inr e => bodyUsed (request e)
                         | inl _ => false
                         end)) in Heq.
    vm_compute in Heq. discriminate.
  - split; [exact Hsecond|]. rewrite Hfirst, Hsecond. discriminate.
Qed.

(** * Further properties of the normalizer *)

(** An iteration touches no entry but the one of its key. *)
Lemma getSearchParams_step_other (p : Params) (k v key : string) :
  key ≠ k ->
  params_own (getSearchParams_step p (k, v)) !! key = params_own p !! key.
Proof.
  intros Hne. unfold getSearchParams_step.
  set (current := Get (Params_to_js p) k).
  destruct (truthy current && isArray current).
  - unfold push. destruct current; try done.
    destruct (locate p k); simpl; try done. by rewrite lookup_insert_ne.
  - unfold assign.
    destruct (String.eqb k "__proto__"), (params_own p !! k),
      (truthy current); simpl; rewrite ?lookup_insert_ne by done; try done;
      by case_match.
Qed.

Lemma locate_InProto_key (p : Params) (key : string) :
  locate p key = InProto -> key = "__proto__".
Proof.
  unfold locate. repeat case_match; try discriminate.
  intros _. by apply String.eqb_eq.
Qed.

Lemma array_index_proto : array_index "__proto__" = None.
Proof. reflexivity. Qed.

Lemma locate_InRuntime (p : Params) (key : string) :
  locate p key = InRuntime -> isArray (Get (Params_to_js p) key) = false.
Proof.
  unfold locate, Get, Params_to_js. simpl.
  destruct (params_own p !! key) as [v|]; [discriminate|].
  destruct (params_proto p) as [items|]; simpl;
    unfold Array_get_own, ArrayPrototype_get, ObjectPrototype_get.
  - destruct (String.eqb key "length"); [done|].
    destruct (array_index key) as [i|] eqn:Hindex.
    + destruct (Nat.ltb_spec i (length items)) as [|Hge]; [discriminate|].
      rewrite (lookup_ge_None_2 items i Hge).
      destruct (has_name ArrayPrototype_names key); [done|].
      destruct (String.eqb_spec key "__proto__") as [->|]; [done|].
      by destruct (has_name ObjectPrototype_names key).
    + destruct (has_name ArrayPrototype_names key); [done|].
      destruct (String.eqb key "__proto__"); [discriminate|].
      by destruct (has_name ObjectPrototype_names key).
  - destruct (String.eqb key "__proto__"); [done|].
    by destruct (has_name ObjectPrototype_names key).
Qed.

Lemma installed_prototype_items (values : list string) (items : list jsval)
    (i : nat) (x : jsval) :
  installed_prototype values = Some items ->
  items !! i = Some x -> isArray x = false.
Proof.
  destruct values as [|v0 rest]; [discriminate|]. intros [= <-].
  destruct i as [|i]; simpl; [by intros [= <-]|].
  intros Hx. change (v0 :: rest) with ([v0] ++ rest)%list in Hx.
  apply (list_lookup_fmap_Some_1 JStr (v0 :: rest)) in Hx as (s & -> & _).
  reflexivity.
Qed.

Lemma installed_prototype_snoc (values : list string) (v : string) :
  installed_prototype (values ++ [v])
  = Some (default [JNative ObjectPrototype] (installed_prototype values)
          ++ [JStr v])%list.
Proof.
  destruct values as [|v0 rest]; [reflexivity|].
  simpl. by rewrite fmap_app.
Qed.

(** An iteration on a key other than [__proto__] stores under the key and
    leaves the prototype alone. *)
Lemma getSearchParams_step_key (p : Params) (k v : string)
    (values : list string) :
  k ≠ "__proto__" ->
  params_proto p = installed_prototype values ->
  params_proto (getSearchParams_step p (k, v)) = params_proto p
  /\ is_Some (params_own (getSearchParams_step p (k, v)) !! k).
Proof.
  intros Hkey Hproto. unfold getSearchParams_step.
  set (current := Get (Params_to_js p) k).
  destruct (truthy current && isArray current) eqn:Hbranch.
  - apply andb_true_iff in Hbranch as [_ Harray].
    destruct (locate p k) eqn:Hloc.
    + destruct (locate_InOwn _ _ Hloc) as [x Hx].
      unfold push. rewrite Hloc.
      destruct current; simpl; rewrite ?lookup_insert_eq; eauto.
    + by apply locate_InProto_key in Hloc.
    + destruct (locate_InProtoItem _ _ _ Hloc) as (items & Hitems & Hitem).
      rewrite Hproto in Hitems.
      pose proof (installed_prototype_items _ _ _ _ Hitems Hitem) as Hno.
      fold current in Hno. congruence.
    + apply locate_InRuntime in Hloc. fold current in Hloc. congruence.
  - unfold assign. destruct (String.eqb_spec k "__proto__"); [done|].
    simpl. rewrite lookup_insert_eq. eauto.
Qed.

(** An iteration on [__proto__] stores nothing and extends the prototype. *)
Lemma getSearchParams_step_proto (p : Params) (v : string)
    (values : list string) :
  params_own p !! "__proto__" = None ->
  params_proto p = installed_prototype values ->
  params_own (getSearchParams_step p ("__proto__", v)) = params_own p
  /\ params_proto (getSearchParams_step p ("__proto__", v))
     = installed_prototype (values ++ [v]).
Proof.
  intros Hown Hproto. rewrite installed_prototype_snoc, <- Hproto.
  unfold getSearchParams_step, Get, Params_to_js. simpl. rewrite Hown.
  destruct (params_proto p) as [items|] eqn:Hitems; simpl.
  - unfold push, locate. rewrite Hown, Hitems. simpl. done.
  - unfold assign. simpl. rewrite Hown. done.
Qed.

(** The loop invariant behind the keys and the prototype of the mapping. *)
Lemma getSearchParams_loop_keys (searchParams : URLSearchParams) :
  let p := getSearchParams_loop searchParams
             {| params_own := ∅; params_proto := None |} in
  params_own p !! "__proto__" = None
  /\ params_proto p = installed_prototype (values_for "__proto__" searchParams)
  /\ forall key, is_Some (params_own p !! key)
                 <-> key ≠ "__proto__" /\ key ∈ searchParams.*1.
Proof.
  induction searchParams as [|[k v] prefix IH] using rev_ind.
  { simpl. split; [done|]. split; [done|]. intros key.
    rewrite lookup_empty. split; [by intros [? ?]|].
    intros [_ Hin]. by apply elem_of_nil in Hin. }
  destruct IH as (IHown & IHproto & IHkeys).
  unfold getSearchParams_loop in *. rewrite fold_left_app. cbn [fold_left].
  set (p := fold_left getSearchParams_step prefix _) in *.
  rewrite values_for_snoc.
  assert (Hmember : forall key : string, key ∈ ((prefix ++ [(k, v)])%list).*1
                                <-> key ∈ prefix.*1 \/ key = k).
  { intros key. rewrite fmap_app, elem_of_app. simpl.
    by rewrite list_elem_of_singleton. }
  destruct (decide (k = "__proto__")) as [->|Hk].
  - destruct (getSearchParams_step_proto p v _ IHown IHproto) as [-> ->].
    split; [done|]. split; [done|]. intros key.
    rewrite IHkeys, Hmember. intuition congruence.
  - destruct (getSearchParams_step_key p k v _ Hk IHproto) as [-> Hstored].
    rewrite app_nil_r.
    split; [by rewrite getSearchParams_step_other|]. split; [done|].
    intros key. rewrite Hmember.
    destruct (decide (key = k)) as [->|Hne]; [by intuition|].
    rewrite getSearchParams_step_other by done. rewrite IHkeys.
    intuition congruence.
Qed.

(** X1.  The keys of the canonical mapping are the keys of the source other
    than [__proto__]: every other key of the source is a key of the mapping,
    nothing else is, and [__proto__] never is. *)
Theorem getSearchParams_keys (searchParams : URLSearchParams) (key : string) :
  is_Some (params_own (getSearchParams (inl searchParams)) !! key)
  <-> key ≠ "__proto__" /\ key ∈ searchParams.*1.
Proof. apply (getSearchParams_loop_keys searchParams). Qed.

(** X2.  The prototype of the canonical mapping is [Object.prototype] unless
    the source has the key [__proto__]; then it is the array that holds
    [Object.prototype] followed by the values sent under [__proto__], in
    source order. *)
Theorem getSearchParams_prototype (searchParams : URLSearchParams) :
  params_proto (getSearchParams (inl searchParams))
  = installed_prototype (values_for "__proto__" searchParams).
Proof. apply (getSearchParams_loop_keys searchParams). Qed.

Lemma ordinary_key_spec (key : string) :
  ordinary_key key = true ->
  String.eqb key "__proto__" = false
  /\ String.eqb key "length" = false
  /\ has_name ObjectPrototype_names key = false
  /\ has_name ArrayPrototype_names key = false
  /\ array_index key = None.
Proof.
  unfold ordinary_key. rewrite !andb_true_iff, !negb_true_iff.
  intros ((((? & ?) & ?) & ?) & Hindex).
  by destruct (array_index key).
Qed.

(** Under an ordinary key the property read finds the stored value or
    nothing, whatever the prototype of [params] is. *)
Lemma Get_ordinary (p : Params) (key : string) :
  ordinary_key key = true ->
  Get (Params_to_js p) key = default JUndefined (params_own p !! key).
Proof.
  intros (Hproto & Hlength & Hobject & Harray & Hindex)%ordinary_key_spec.
  unfold Get, Params_to_js. simpl.
  destruct (params_own p !! key) as [v|]; [done|]. simpl.
  destruct (params_proto p) as [items|]; simpl;
    unfold Array_get_own, ArrayPrototype_get, ObjectPrototype_get;
    by rewrite ?Hlength, ?Hindex, ?Harray, ?Hproto, ?Hobject.
Qed.

Lemma drop_overwritten_snoc (values : list string) (v : string) :
  drop_overwritten (values ++ [v])
  = match drop_overwritten values with
    | [] => [v]
    | [s] => if String.eqb s "" then [v] else [s; v]
    | kept => (kept ++ [v])%list
    end.
Proof.
  induction values as [|a [|b rest] IH]; [reflexivity|reflexivity|].
  change ((a :: b :: rest) ++ [v])%list with (a :: ((b :: rest) ++ [v]))%list.
  cbn [drop_overwritten app] in *.
  destruct (String.eqb a ""); [exact IH|reflexivity].
Qed.

Lemma getSearchParams_loop_ordinary
    (searchParams : URLSearchParams) (key : string) :
  ordinary_key key = true ->
  params_own (getSearchParams_loop searchParams
                {| params_own := ∅; params_proto := None |}) !! key
  = collapsed (drop_overwritten (values_for key searchParams)).
Proof.
  intros Hkey.
  induction searchParams as [|[k v] prefix IH] using rev_ind; [done|].
  unfold getSearchParams_loop in *. rewrite fold_left_app. cbn [fold_left].
  set (p := fold_left getSearchParams_step prefix _) in *.
  rewrite values_for_snoc. destruct (decide (k = key)) as [->|Hne].
  - rewrite drop_overwritten_snoc.
    pose proof (Get_ordinary p key Hkey) as Hget. rewrite IH in Hget.
    destruct (ordinary_key_spec key Hkey) as (Hproto & _).
    unfold getSearchParams_step. rewrite Hget.
    destruct (drop_overwritten (values_for key prefix))
      as [|s [|s' kept]] eqn:Hkept; cbn [collapsed default from_option id].
    + unfold assign. rewrite Hproto. simpl. by rewrite lookup_insert_eq.
    + simpl. unfold assign. rewrite Hproto.
      destruct (String.eqb s ""); simpl; by rewrite lookup_insert_eq.
    + unfold push, locate. rewrite IH. simpl.
      by rewrite lookup_insert_eq, fmap_app.
  - rewrite getSearchParams_step_other by done. by rewrite app_nil_r.
Qed.

(** X3.  Under an ordinary key the canonical mapping holds the collapse of
    the key's values after the loop's overwriting: leading empty values are
    dropped (an empty stored value is replaced by the next value), the values
    from the first non-empty one on are kept in source order, and a key whose
    values are all empty keeps the last one.  This holds whatever else the
    source contains. *)
Theorem getSearchParams_ordinary_key
    (searchParams : URLSearchParams) (key : string) :
  ordinary_key key = true ->
  params_own (getSearchParams (inl searchParams)) !! key
  = collapsed (drop_overwritten (values_for key searchParams)).
Proof. apply getSearchParams_loop_ordinary. Qed.

(** X4.  Under an ordinary key whose first value is not empty, no value is
    lost: a single value is stored as it is, several values as the sequence
    of all of them in source order, later empty values included. *)
Theorem getSearchParams_keeps_all_values
    (searchParams : URLSearchParams) (key : string) :
  ordinary_key key = true ->
  head (values_for key searchParams) ≠ Some "" ->
  params_own (getSearchParams (inl searchParams)) !! key
  = collapsed (values_for key searchParams).
Proof.
  intros Hkey Hhead.
  unfold getSearchParams. rewrite (getSearchParams_loop_ordinary _ _ Hkey).
  destruct (values_for key searchParams) as [|v0 [|v1 rest]]; [done|done|].
  cbn [drop_overwritten]. destruct (String.eqb_spec v0 ""); [|done].
  subst v0. by destruct Hhead.
Qed.

Lemma has_name_proto : has_name ObjectPrototype_names "__proto__" = false.
Proof. reflexivity. Qed.

(** X5.  In a source without the key [__proto__], a key that names a method
    of [Object.prototype] is never stored as a string: from its first
    occurrence on it holds the sequence made of the inherited method followed
    by the key's values in source order. *)
Theorem getSearchParams_inherited_method
    (searchParams : URLSearchParams) (key : string) :
  has_name ObjectPrototype_names key = true ->
  "__proto__" ∉ searchParams.*1 ->
  params_own (getSearchParams (inl searchParams)) !! key
  = match values_for key searchParams with
    | [] => None
    | values =>
        Some (JArr (JNative (NativeFunction ("Object.prototype." ++ key))
                    :: (JStr <$> values)))
    end.
Proof.
  intros Hname. unfold getSearchParams.
  assert (Hkey : String.eqb key "__proto__" = false).
  { destruct (String.eqb_spec key "__proto__") as [->|]; [|done].
    by rewrite has_name_proto in Hname. }
  induction searchParams as [|[k v] prefix IH] using rev_ind; intros Hsource;
    [done|].
  rewrite fmap_app, not_elem_of_app in Hsource.
  destruct Hsource as [Hprefix Hk]. simpl in Hk.
  rewrite list_elem_of_singleton in Hk.
  specialize (IH Hprefix).
  pose proof (getSearchParams_loop_keys prefix) as (_ & Hproto & _).
  unfold getSearchParams_loop in *. rewrite fold_left_app. cbn [fold_left].
  set (p := fold_left getSearchParams_step prefix _) in *.
  assert (Hnone : params_proto p = None).
  { rewrite Hproto. unfold values_for.
    destruct (filter _ prefix) as [|[k' v'] rest] eqn:Hfilter; [done|].
    assert (Hin : (k', v') ∈ filter (fun pair => pair.1 = "__proto__") prefix)
      by (rewrite Hfilter; left).
    apply list_elem_of_filter in Hin as [Heq Hin]. simpl in Heq. subst k'.
    destruct Hprefix. apply list_elem_of_fmap. by exists ("__proto__", v'). }
  rewrite values_for_snoc. destruct (decide (k = key)) as [->|Hne].
  - unfold getSearchParams_step, Get, Params_to_js. rewrite Hnone. simpl.
    rewrite IH.
    destruct (values_for key prefix) as [|v0 rest] eqn:Hvalues; simpl.
    + unfold ObjectPrototype_get. rewrite Hkey, Hname. simpl.
      unfold assign. rewrite Hkey. simpl. by rewrite lookup_insert_eq.
    + unfold push, locate. rewrite IH. simpl.
      by rewrite lookup_insert_eq, fmap_app.
  - rewrite getSearchParams_step_other by done. by rewrite app_nil_r.
Qed.

(** * Further properties of the operations *)


Section OperationProperties.
Context `{Zod}.


(** X7.  What the form operations reject with.  The safe operation never
    rejects on a form-data container, and on a request event it rejects
    exactly when [request.formData()] rejects, with that reason.  The strict
    operation passes a rejection of the body read on unchanged, whatever the
    schema, and rejects otherwise only with the HTTP error of status 400 and
    message ['Parsing Failed']. *)
Theorem form_operations_rejections (schema : Schema) :
  (forall formData : FormData,
     exists result,
       fst (parseFormDataSafe (inl formData) schema) = Fulfilled result)
  /\ (forall (event : RequestEvent) (e : thrown),
        fst (parseFormDataSafe (inr event) schema) = Rejected e
        <-> fst (Request_formData (request event)) = Rejected e)
  /\ (forall (event : RequestEvent) (e : thrown),
        fst (Request_formData (request event)) = Rejected e ->
        fst (parseFormData (inr event) schema) = Rejected e)
  /\ (forall (data : FormData + RequestEvent) (e : thrown),
        fst (parseFormData data schema) = Rejected e ->
        (exists event, data = inr event
                       /\ fst (Request_formData (request event)) = Rejected e)
        \/ (exists fieldErrors,
              e = ThrowHttpError
                    {| status := 400;
                       error_body := {| message := "Parsing Failed";
                                        errors := fieldErrors |} |})).
Proof.
  split; [|split; [|split]].
  - intros formData. unfold parseFormDataSafe.
    rewrite getFormData_container. simpl. eauto.
  - intros event e. unfold parseFormDataSafe, getFormData.
    destruct (Request_formData (request event)) as [[formData|e'] request'];
      simpl; split; intros Heq; by simplify_eq.
  - intros event e. unfold parseFormData, getFormData.
    destruct (Request_formData (request event)) as [[formData|e'] request'];
      simpl; intros Heq; by simplify_eq.
  - intros data e. unfold parseFormData, parse.
    destruct data as [formData|event]; simpl.
    + destruct (safeParse _ _) as [out|err]; simpl; intros Heq;
        simplify_eq. right. eauto.
    + destruct (Request_formData (request event)) as [[formData|e'] request']
        eqn:Hread; simpl.
      * destruct (safeParse _ _) as [out|err]; simpl; intros Heq;
          simplify_eq. right. eauto.
      * intros [= ->]. left. exists event. by rewrite Hread.
Qed.

Lemma parseSafe_failure (data : jsval) (schema : Schema)
    (failure : SafeParseFailure) :
  parseSafe data schema = SafeFailure failure ->
  response failure = fail 400 {| failure_errors := safe_errors failure |}
  /\ parse data schema
     = Throw (ThrowHttpError
                (error 400 {| message := "Parsing Failed";
                              errors := safe_errors failure |})).
Proof.
  unfold parseSafe, parse.
  destruct (safeParse (getSchema schema) data) as [out|e]; [discriminate|].
  by intros [= <-].
Qed.

Lemma parse_throw (data : jsval) (schema : Schema) (t : thrown) :
  parse data schema = Throw t ->
  exists failure,
    parseSafe data schema = SafeFailure failure
    /\ t = ThrowHttpError
             (error 400 {| message := "Parsing Failed";
                           errors := safe_errors failure |}).
Proof.
  unfold parseSafe, parse.
  destruct (safeParse (getSchema schema) data) as [out|e]; [discriminate|].
  intros [= <-]. eauto.
Qed.

(** X8.  Failures of the two variants of an operation correspond.  When the
    safe variant returns a failure, its prepared response is [fail(400, {
    errors })] with the very map of its [errors] field, and the strict
    variant throws the HTTP error of status 400 that carries that map; when
    the strict variant throws, what it throws is that error, for the map of
    the failure that the safe variant returns. *)
Theorem safe_failure_is_strict_throw (schema : Schema) :
  (forall (data : jsval) (failure : SafeParseFailure),
     parseSafe data schema = SafeFailure failure ->
     response failure = fail 400 {| failure_errors := safe_errors failure |}
     /\ parse data schema
        = Throw (ThrowHttpError
                   (error 400 {| message := "Parsing Failed";
                                 errors := safe_errors failure |})))
  /\ (forall (data : URLSearchParams + RequestEvent)
             (failure : SafeParseFailure),
        parseSearchParamsSafe data schema = SafeFailure failure ->
        parseSearchParams data schema
        = Throw (ThrowHttpError
                   (error 400 {| message := "Parsing Failed";
                                 errors := safe_errors failure |})))
  /\ (forall (data : RouteParams + RequestEvent) (failure : SafeParseFailure),
        parseRouteParamsSafe data schema = SafeFailure failure ->
        parseRouteParams data schema
        = Throw (ThrowHttpError
                   (error 400 {| message := "Parsing Failed";
                                 errors := safe_errors failure |})))
  /\ (forall (data : jsval) (t : thrown),
        parse data schema = Throw t ->
        exists failure,
          parseSafe data schema = SafeFailure failure
          /\ t = ThrowHttpError
                   (error 400 {| message := "Parsing Failed";
                                 errors := safe_errors failure |})).
Proof.
  split; [|split; [|split]].
  - intros data failure. apply parseSafe_failure.
  - intros data failure Hsafe. unfold parseSearchParams.
    by apply parseSafe_failure.
  - intros data failure Hsafe. unfold parseRouteParams.
    by apply parseSafe_failure.
  - intros data t. apply parse_throw.
Qed.


End OperationProperties.

(** * A sharper shape invariant of the normalizer *)

Lemma getSearchParams_step_strings (p : Params) (pair : string * string) :
  map_Forall (fun _ v => strings_after_head v) (params_own p) ->
  map_Forall (fun _ v => strings_after_head v)
             (params_own (getSearchParams_step p pair)).
Proof.
  intros Hinv. destruct pair as [key value]. unfold getSearchParams_step.
  set (current := Get (Params_to_js p) key).
  destruct (truthy current && isArray current) eqn:Hbranch.
  - unfold push. destruct current as [| | | | |items|] eqn:Hcur; try done.
    destruct (locate p key) eqn:Hloc; simpl; try done.
    apply map_Forall_insert_2; [|done].
    destruct (locate_InOwn _ _ Hloc) as [v Hv].
    pose proof (Get_own _ _ _ Hv) as Hget. fold current in Hget.
    rewrite Hcur in Hget. subst v.
    pose proof (Hinv _ _ Hv) as Hshape. simpl in Hshape |- *.
    destruct items as [|head rest]; [done|]. destruct Hshape as [Hne Hrest].
    simpl. split; [by destruct rest|].
    apply Forall_app. split; [done|]. by apply Forall_singleton.
  - unfold assign.
    destruct (String.eqb key "__proto__"), (params_own p !! key),
      (truthy current); simpl; try done;
      try (apply map_Forall_insert_2; [simpl; auto | done]);
      split; try done; by apply Forall_singleton.
Qed.

(** X10.  Every value of the canonical mapping is a string, or a sequence
    whose elements from the second on are strings: the head of a sequence is
    the only place where something else than a string can be stored. *)
Theorem getSearchParams_strings_after_head
    (data : URLSearchParams + RequestEvent) :
  map_Forall (fun _ v => strings_after_head v)
             (params_own (getSearchParams data)).
Proof.
  unfold getSearchParams, getSearchParams_loop.
  generalize (match data with
              | inl searchParams => searchParams
              | inr event => url_searchParams event
              end).
  intros searchParams.
  assert (Hinit : map_Forall (fun _ v => strings_after_head v)
                    (params_own {| params_own := ∅; params_proto := None |}))
    by apply map_Forall_empty.
  revert Hinit. generalize {| params_own := ∅; params_proto := None |}.
  induction searchParams as [|pair rest IH]; intros p Hinv; [done|].
  simpl. apply IH. by apply getSearchParams_step_strings.
Qed.

(** * The further properties at concrete inputs *)

Lemma getSearchParams_keys_witness :
  is_Some (params_own (getSearchParams
                         (inl [("__proto__", "x"); ("a", ""); ("a", "y")]))
           !! "a")
  /\ ~ is_Some (params_own (getSearchParams
                              (inl [("__proto__", "x"); ("a", ""); ("a", "y")]))
                !! "__proto__").
Proof.
  split.
  - apply getSearchParams_keys. split; [done|].
    simpl. apply list_elem_of_In. simpl. tauto.
  - intros Hkey. apply getSearchParams_keys in Hkey as [Hne _]. by apply Hne.
Defined.

Lemma getSearchParams_ordinary_key_witness :
  ordinary_key "a" = true
  /\ params_own (getSearchParams
                   (inl [("a", ""); ("0", "n"); ("a", ""); ("a", "x");
                         ("a", ""); ("a", "y")])) !! "a"
     = Some (JArr [JStr "x"; JStr ""; JStr "y"]).
Proof.
  split; [reflexivity|].
  rewrite getSearchParams_ordinary_key by reflexivity. reflexivity.
Defined.

Lemma getSearchParams_keeps_all_values_witness :
  ordinary_key "t" = true
  /\ head (values_for "t" [("t", "x"); ("u", "1"); ("t", ""); ("t", "z")])
     ≠ Some ""
  /\ params_own (getSearchParams
                   (inl [("t", "x"); ("u", "1"); ("t", ""); ("t", "z")]))
     !! "t"
     = Some (JArr [JStr "x"; JStr ""; JStr "z"]).
Proof.
  split; [reflexivity|]. split; [discriminate|].
  rewrite getSearchParams_keeps_all_values; [reflexivity|reflexivity|].
  discriminate.
Defined.

Lemma getSearchParams_inherited_method_witness :
  has_name ObjectPrototype_names "valueOf" = true
  /\ ("__proto__" ∉ [("valueOf", "x"); ("a", "1"); ("valueOf", "y")].*1)
  /\ params_own (getSearchParams
                   (inl [("valueOf", "x"); ("a", "1"); ("valueOf", "y")]))
     !! "valueOf"
     = Some (JArr [JNative (NativeFunction "Object.prototype.valueOf");
                   JStr "x"; JStr "y"]).
Proof.
  assert (Hsource :
            "__proto__" ∉ [("valueOf", "x"); ("a", "1"); ("valueOf", "y")].*1).
  { simpl. rewrite list_elem_of_In. simpl. intros [?|[?|[?|[]]]]; discriminate. }
  split; [reflexivity|]. split; [exact Hsource|].
  rewrite getSearchParams_inherited_method; [reflexivity|reflexivity|].
  exact Hsource.
Defined.


Lemma form_operations_rejections_witness :
  let used := body_read (requestEvent [] validFormData ∅) in
  fst (Request_formData (request used)) = Rejected ThrowBodyUnusable
  /\ fst (@parseFormDataSafe zod_decimal (inr used) schema_ab)
     = Rejected ThrowBodyUnusable
  /\ fst (@parseFormData zod_decimal (inr used) schema_ab)
     = Rejected ThrowBodyUnusable
  /\ ((exists event, @inr FormData RequestEvent used = inr event
                     /\ fst (Request_formData (request event))
                        = Rejected ThrowBodyUnusable)
      \/ (exists fieldErrors,
            ThrowBodyUnusable
            = ThrowHttpError
                {| status := 400;
                   error_body := {| message := "Parsing Failed";
                                    errors := fieldErrors |} |})).
Proof.
  intros used.
  destruct (@form_operations_rejections zod_decimal schema_ab)
    as (_ & Hsafe & Hstrict & Honly).
  assert (Hread : fst (Request_formData (request used))
                  = Rejected ThrowBodyUnusable) by reflexivity.
  split; [exact Hread|].
  split; [by apply Hsafe|].
  split; [by apply Hstrict|].
  apply Honly. by apply Hstrict.
Defined.

Lemma safe_failure_is_strict_throw_witness :
  let failure :=
    {| safe_errors := errors_a;
       response := fail 400 {| failure_errors := errors_a |} |} in
  @parseSearchParamsSafe zod_decimal (inl invalidSearchParams) schema_ab
  = SafeFailure failure
  /\ @parseSearchParams zod_decimal (inl invalidSearchParams) schema_ab
     = Throw (ThrowHttpError
                (error 400 {| message := "Parsing Failed";
                              errors := safe_errors failure |}))
  /\ @parseRouteParams zod_decimal (inl invalidRouteParams) schema_ab
     = Throw (ThrowHttpError
                (error 400 {| message := "Parsing Failed";
                              errors := safe_errors failure |})).
Proof.
  intros failure.
  destruct (@safe_failure_is_strict_throw zod_decimal schema_ab)
    as (_ & Hsearch & Hroute & _).
  assert (Hsafe : @parseSearchParamsSafe zod_decimal (inl invalidSearchParams)
                    schema_ab = SafeFailure failure)
    by (vm_compute; reflexivity).
  split; [exact Hsafe|].
  split; [by apply Hsearch|].
  apply Hroute. vm_compute. reflexivity.
Defined.
